(** * The agent's HTTP push endpoint and the kube metrics server

    A shallow embedding of two Go files of the agent:

    - package [http], [configPushRoutes]: the handler of [/v1/push];
    - package [k8s], [main.go]: the scrape server ([metricsServer]) and the
      four typed listers built by [InitializeMetricCollection].

    Go values are modelled as the code has them: [int64] as [Z], byte
    strings as [string], a pointer that may be nil as an [option], a Go
    [error] as an optional message, a run-time panic as an outcome of its
    own, and the store behind an informer as a finite map. *)

From Stdlib Require Import ZArith.
From stdpp Require Import base option list strings pretty gmap fin_maps.

Local Open Scope string_scope.
Local Open Scope Z_scope.

(** ** Go run-time conventions *)

Module GoRuntime.

(** A Go [error]: [nil] or a value that carries a message. *)
Definition error : Type := option string.
Definition nil : error := None.

(** What a call does: it returns, or it panics. *)
Inductive Outcome (A : Type) : Type :=
  | Returned (a : A)
  | Panicked (reason : string).
Global Arguments Returned {A} a.
Global Arguments Panicked {A} reason.

Definition bind {A B} (m : Outcome A) (k : A → Outcome B) : Outcome B :=
  match m with
  | Returned a => k a
  | Panicked r => Panicked r
  end.

Global Instance Outcome_ret : MRet Outcome := λ A a, Returned a.
Global Instance Outcome_bind : MBind Outcome := λ A B k m, bind m k.

Definition nilDereference : string :=
  "invalid memory address or nil pointer dereference".
Definition badAssertion : string := "interface conversion".

End GoRuntime.
Import GoRuntime.

(** ** The part of net/http the two packages use *)

Module NetHTTP.

Definition StatusOK : Z := 200.
Definition StatusBadRequest : Z := 400.

(** [http.Request]: the fields a handler can look at.  [ContentLength]
    is the declared length, [-1] when it is unknown (a chunked body). *)
Record Request := {
  Method : string;
  URLPath : string;
  Header : list (string * string);
  ContentLength : Z;
  Body : string
}.

(** What the server guarantees about a request it hands to a handler:
    a declared length bounds the bytes that can be read from the body. *)
Definition wf_request (r : Request) : Prop :=
  0 ≤ ContentLength r → Z.of_nat (String.length (Body r)) ≤ ContentLength r.

(** [http.ResponseWriter], as a handler sees it: the status line is
    fixed by the first [WriteHeader], or by the first [Write]. *)
Record ResponseWriter := {
  wroteHeader : bool;
  status : Z;
  respHeader : list (string * string);
  written : string
}.

Definition newResponse : ResponseWriter :=
  {| wroteHeader := false; status := 0; respHeader := []; written := "" |}.

Definition WriteHeader (code : Z) (w : ResponseWriter) : ResponseWriter :=
  if wroteHeader w then w
  else {| wroteHeader := true; status := code;
          respHeader := respHeader w; written := written w |}.

Definition Write (data : string) (w : ResponseWriter) : ResponseWriter :=
  let w' := if wroteHeader w then w else WriteHeader StatusOK w in
  {| wroteHeader := wroteHeader w'; status := status w';
     respHeader := respHeader w'; written := written w' +:+ data |}.

Definition HeaderSet (k v : string) (w : ResponseWriter) : ResponseWriter :=
  {| wroteHeader := wroteHeader w; status := status w;
     respHeader := (k, v) :: filter (λ kv, kv.1 ≠ k) (respHeader w);
     written := written w |}.

Definition newline : string := String (Ascii.ascii_of_nat 10) EmptyString.

(** [http.Error]: plain-text headers, the status, then the message and a
    newline ([fmt.Fprintln]). *)
Definition Error (w : ResponseWriter) (msg : string) (code : Z)
    : ResponseWriter :=
  let w1 := HeaderSet "Content-Type" "text/plain; charset=utf-8" w in
  let w2 := HeaderSet "X-Content-Type-Options" "nosniff" w1 in
  let w3 := WriteHeader code w2 in
  Write (msg +:+ newline) w3.

End NetHTTP.
Import NetHTTP.

(** ** Package http: the push endpoint *)

Module Push.

(** [model.MetricValue] of the open-falcon common library.  [Value] is
    an [interface{}]; its type is left open. *)
Record MetricValue (V : Type) := {
  Endpoint : string;
  Metric : string;
  Value : V;
  Step : Z;
  Type_ : string;
  Tags : string;
  Timestamp : Z
}.
Global Arguments Endpoint {V} _.
Global Arguments Metric {V} _.
Global Arguments Value {V} _.
Global Arguments Step {V} _.
Global Arguments Type_ {V} _.
Global Arguments Tags {V} _.
Global Arguments Timestamp {V} _.

(** Modelled from the spec: [g.Config()], which is not under src/.  It
    gives the process's configuration; the handler reads its [Hostname],
    the configured local identity. *)
Record GlobalConfig := { Hostname : string }.

(** Modelled from the spec: [g.SendToTransfer], which is not under src/.
    It hands a batch to the downstream sink and returns nothing: whether
    the sink took the batch ([sinkUp]) is not reported to the caller. *)
Record Transfer (B : Type) := {
  sinkUp : bool;
  handed : list B;
  delivered : list B
}.
Global Arguments sinkUp {B} _.
Global Arguments handed {B} _.
Global Arguments delivered {B} _.

Definition SendToTransfer {B} (metrics : B) (t : Transfer B) : Transfer B :=
  {| sinkUp := sinkUp t;
     handed := handed t ++ [metrics];
     delivered := if sinkUp t then delivered t ++ [metrics] else delivered t |}.

Section Handler.
Context {V : Type}.

(** [[]*model.MetricValue]: a slice of pointers, each possibly nil. *)
Definition Batch : Type := list (option (MetricValue V)).

(** [decoder.Decode(&metrics)] of encoding/json on the request body:
    what it leaves in [metrics], and the error it returns. *)
Variable Decode : string → Batch * error.

(** [v.Endpoint = host] *)
Definition setEndpoint (host : string) (v : MetricValue V) : MetricValue V :=
  {| Endpoint := host; Metric := Metric v; Value := Value v;
     Step := Step v; Type_ := Type_ v; Tags := Tags v;
     Timestamp := Timestamp v |}.

(** The body of the loop, on a pointer that is not nil. *)
Definition defaultEndpoint (cfg : GlobalConfig) (v : MetricValue V)
    : MetricValue V :=
  if decide (Endpoint v = "") then setEndpoint (Hostname cfg) v else v.

(** [for _, v := range metrics { if v.Endpoint == "" { ... } }]:
    reading [v.Endpoint] through a nil pointer panics. *)
Fixpoint rangeMetrics (cfg : GlobalConfig) (metrics : Batch) : Outcome Batch :=
  match metrics with
  | [] => Returned []
  | None :: _ => Panicked nilDereference
  | Some v :: rest =>
      rest' ← rangeMetrics cfg rest;
      mret (Some (defaultEndpoint cfg v) :: rest')
  end.

(** The handler that [configPushRoutes] registers for [/v1/push]. *)
Definition pushHandler (cfg : GlobalConfig) (w : ResponseWriter)
    (req : Request) (sink : Transfer Batch)
    : Outcome (ResponseWriter * Transfer Batch) :=
  if decide (ContentLength req = 0) then
    Returned (Error w "body is blank" StatusBadRequest, sink)
  else
    let '(metrics, err) := Decode (Body req) in
    match err with
    | Some _ => Returned (Error w "connot decode body" StatusBadRequest, sink)
    | None =>
        metrics' ← rangeMetrics cfg metrics;
        Returned (Write "success" w, SendToTransfer metrics' sink)
    end.

End Handler.

(** The body [[{"metric":"cpu.load","value":1.2}]], and the point it
    decodes to: absent fields are zero, and the number stands as its
    literal. *)
Definition quoted (s : string) : string :=
  String (Ascii.ascii_of_nat 34) s +:+ String (Ascii.ascii_of_nat 34) "".

Definition cpuLoadBody : string :=
  "[{" +:+ quoted "metric" +:+ ":" +:+ quoted "cpu.load" +:+ ","
       +:+ quoted "value" +:+ ":1.2}]".

Definition cpuLoadPoint : MetricValue string :=
  {| Endpoint := ""; Metric := "cpu.load"; Value := "1.2"; Step := 0;
     Type_ := ""; Tags := ""; Timestamp := 0 |}.

(** A decoder fixed on a handful of bodies, on which it agrees with
    encoding/json decoding into [[]*model.MetricValue]: an empty stream
    is an error (EOF), [null] and [[]] give a batch of no points, a
    [null] element gives a nil pointer, an object gives a point whose
    absent fields are zero.  Every other body is taken as malformed. *)
Definition tableDecode (body : string) : @Batch string * error :=
  if decide (body = "") then ([], Some "EOF")
  else if decide (body = "null") then ([], nil)
  else if decide (body = "[]") then ([], nil)
  else if decide (body = "[null]") then ([None], nil)
  else if decide (body = cpuLoadBody) then ([Some cpuLoadPoint], nil)
  else ([], Some "invalid character").

Definition localConfig : GlobalConfig := {| Hostname := "agent-01" |}.

Definition idleSink : Transfer (@Batch string) :=
  {| sinkUp := true; handed := []; delivered := [] |}.

(** A request whose length is declared, and one whose body is chunked. *)
Definition post (body : string) : Request :=
  {| Method := "POST"; URLPath := "/v1/push";
     Header := [("Content-Type", "application/json")];
     ContentLength := Z.of_nat (String.length body); Body := body |}.

Definition postChunked (body : string) : Request :=
  {| Method := "POST"; URLPath := "/v1/push";
     Header := [("Transfer-Encoding", "chunked")];
     ContentLength := -1; Body := body |}.

End Push.


(** ** Package k8s: the resource mirror and the scrape server *)

Module K8s.

Definition metricsPath : string := "/metrics".
Definition healthzPath : string := "/healthz".

(** The four resource kinds the process mirrors. *)
Inductive Kind := KDeployment | KPod | KNode | KReplicationController.

Global Instance Kind_eq_dec : EqDecision Kind.
Proof. solve_decision. Defined.

Global Instance Kind_countable : Countable Kind.
Proof.
  refine (inj_countable'
    (λ k, match k with
          | KDeployment => 0 | KPod => 1 | KNode => 2
          | KReplicationController => 3
          end%nat)
    (λ n, match n with
          | 0 => KDeployment | 1 => KPod | 2 => KNode
          | _ => KReplicationController
          end%nat) _).
  by intros [].
Defined.

(** The part of an object's metadata that names it. *)
Record ObjectMeta := { Namespace : string; Name : string }.

(** The object schemas of the cluster API ([v1beta1.Deployment], [v1.Pod],
    [v1.Node], [v1.ReplicationController]): opaque here, but for the
    metadata each carries. *)
Class APITypes := {
  Deployment : Type;
  Pod : Type;
  Node : Type;
  ReplicationController : Type;
  deploymentMeta : Deployment → ObjectMeta;
  podMeta : Pod → ObjectMeta;
  nodeMeta : Node → ObjectMeta;
  rcMeta : ReplicationController → ObjectMeta
}.

(** [v1.NodeList]: the list struct the node lister fills. *)
Record NodeList `{APITypes} := { Items : list Node }.

(** An entry of a store: an [interface{}] that holds a pointer to a typed
    object. *)
Inductive Object `{APITypes} :=
  | DeploymentPtr (d : Deployment)
  | PodPtr (p : Pod)
  | NodePtr (n : Node)
  | ReplicationControllerPtr (r : ReplicationController).

Section Mirror.
Context `{APITypes}.

Definition kindOf (o : Object) : Kind :=
  match o with
  | DeploymentPtr _ => KDeployment
  | PodPtr _ => KPod
  | NodePtr _ => KNode
  | ReplicationControllerPtr _ => KReplicationController
  end.

Definition metaOf (o : Object) : ObjectMeta :=
  match o with
  | DeploymentPtr d => deploymentMeta d
  | PodPtr p => podMeta p
  | NodePtr n => nodeMeta n
  | ReplicationControllerPtr r => rcMeta r
  end.

(** Modelled from the spec: the Watch Cache, that is the store behind
    [cache.NewSharedInformer], which is not under src/.  A keyed store,
    key = resource kind + namespace + name, populated by an initial full
    list and then mutated by add, update and delete events in arrival
    order; a resync replaces the whole store from a fresh list; [List()]
    hands out the current contents, in no particular order. *)
Definition Key : Type := Kind * string * string.

Definition keyOf (o : Object) : Key :=
  (kindOf o, Namespace (metaOf o), Name (metaOf o)).

Inductive Event :=
  | Added (o : Object)
  | Updated (o : Object)
  | Deleted (o : Object)
  | Relisted (os : list Object).

Definition replaceAll (os : list Object) : gmap Key Object :=
  foldl (λ st o, <[keyOf o := o]> st) ∅ os.

Definition applyEvent (st : gmap Key Object) (e : Event) : gmap Key Object :=
  match e with
  | Added o => <[keyOf o := o]> st
  | Updated o => <[keyOf o := o]> st
  | Deleted o => delete (keyOf o) st
  | Relisted os => replaceAll os
  end.

Definition applyEvents (st : gmap Key Object) (es : list Event)
    : gmap Key Object :=
  foldl applyEvent st es.

(** The store after [Start()]: the initial list, then the events. *)
Definition mirrored (initial : list Object) (es : list Event)
    : gmap Key Object :=
  applyEvents (replaceAll initial) es.

(** [snapshot] is a possible result of [List()] on the store [st]. *)
Definition Lists (st : gmap Key Object) (snapshot : list Object) : Prop :=
  snapshot ≡ₚ (map_to_list st).*2.

(** The store of the informer of kind [k] holds objects of that kind. *)
Definition holdsKind (k : Kind) (st : gmap Key Object) : Prop :=
  map_Forall (λ _ o, kindOf o = k) st.

(** Every entry of the store sits under its own key. *)
Definition keyed (st : gmap Key Object) : Prop :=
  map_Forall (λ k o, keyOf o = k) st.

(** The objects an event brings into the store. *)
Definition eventObjects (e : Event) : list Object :=
  match e with
  | Added o | Updated o => [o]
  | Deleted _ => []
  | Relisted os => os
  end.

(** The four informers [InitializeMetricCollection] creates, by the state
    of their stores. *)
Record Informers := {
  dinf : gmap Key Object;
  pinf : gmap Key Object;
  ninf : gmap Key Object;
  rinf : gmap Key Object
}.

Definition wellTyped (inf : Informers) : Prop :=
  holdsKind KDeployment (dinf inf) ∧ holdsKind KPod (pinf inf) ∧
  holdsKind KNode (ninf inf) ∧ holdsKind KReplicationController (rinf inf).

(** *** The typed listers

    Each closure ranges over what [GetStore().List()] hands out, asserts
    the entry's type (a failed assertion panics), and appends a copy of
    the object the pointer leads to. *)

Fixpoint rangeDeployments (snapshot : list Object)
    (deployments : list Deployment) : Outcome (list Deployment) :=
  match snapshot with
  | [] => Returned deployments
  | DeploymentPtr c :: rest => rangeDeployments rest (deployments ++ [c])
  | _ :: _ => Panicked badAssertion
  end.

Fixpoint rangePods (snapshot : list Object) (pods : list Pod)
    : Outcome (list Pod) :=
  match snapshot with
  | [] => Returned pods
  | PodPtr m :: rest => rangePods rest (pods ++ [m])
  | _ :: _ => Panicked badAssertion
  end.

Fixpoint rangeNodes (snapshot : list Object) (machines : NodeList)
    : Outcome NodeList :=
  match snapshot with
  | [] => Returned machines
  | NodePtr m :: rest =>
      rangeNodes rest {| Items := Items machines ++ [m] |}
  | _ :: _ => Panicked badAssertion
  end.

Fixpoint rangeRCs (snapshot : list Object)
    (rcs : list ReplicationController)
    : Outcome (list ReplicationController) :=
  match snapshot with
  | [] => Returned rcs
  | ReplicationControllerPtr m :: rest => rangeRCs rest (rcs ++ [m])
  | _ :: _ => Panicked badAssertion
  end.

(** The lister types: a function from what the bound store lists at the
    time of the call. *)
Definition DeploymentLister : Type :=
  list Object → Outcome (list Deployment * error).
Definition PodLister : Type := list Object → Outcome (list Pod * error).
Definition NodeLister : Type := list Object → Outcome (NodeList * error).
Definition RCLister : Type :=
  list Object → Outcome (list ReplicationController * error).

Definition DeploymentLister_List (l : DeploymentLister) := l.
Definition PodLister_List (l : PodLister) := l.
Definition NodeLister_List (l : NodeLister) := l.
Definition RCLister_List (l : RCLister) := l.

Definition dplLister : DeploymentLister := λ snapshot,
  deployments ← rangeDeployments snapshot [];
  mret (deployments, nil).

Definition podLister : PodLister := λ snapshot,
  pods ← rangePods snapshot [];
  mret (pods, nil).

Definition nodeLister : NodeLister := λ snapshot,
  machines ← rangeNodes snapshot {| Items := [] |};
  mret (machines, nil).

Definition rcLister : RCLister := λ snapshot,
  rcs ← rangeRCs snapshot [];
  mret (rcs, nil).

(** What [InitializeMetricCollection] registers: one collector per kind,
    each with its lister as [store]. *)
Record Registered := {
  deploymentCollector_store : DeploymentLister;
  podCollector_store : PodLister;
  nodeCollector_store : NodeLister;
  replicationcontrollerCollector_store : RCLister
}.

Definition InitializeMetricCollection : Registered :=
  {| deploymentCollector_store := dplLister;
     podCollector_store := podLister;
     nodeCollector_store := nodeLister;
     replicationcontrollerCollector_store := rcLister |}.

(** Modelled from the spec: the collect operation of a Resource Collector
    ([podCollector] and its siblings are not under src/).  It calls its
    lister and, for every object returned, emits the samples of a fixed
    per-kind mapping; a lister that fails contributes no sample. *)
Definition collect {L T Sample : Type} (itemsOf : L → list T)
    (perObject : T → list Sample) (listed : Outcome (L * error))
    : list Sample :=
  match listed with
  | Returned (l, None) => itemsOf l ≫= perObject
  | _ => []
  end.

(** *** The scrape server *)

Definition Handler : Type := Informers → ResponseWriter → Request → ResponseWriter.

Definition healthzHandler : Handler := λ _ w r,
  Write "ok" (WriteHeader 200 w).

Definition indexPage : string :=
  let margin := "             " in
  let tabs := String.concat "" (replicate 3 (String (Ascii.ascii_of_nat 9) "")) +:+ " " in
  String.concat newline [
    "<html>";
    margin +:+ "<head><title>Kube Metrics Server</title></head>";
    margin +:+ "<body>";
    margin +:+ "<h1>Kube Metrics</h1>";
    tabs +:+ "<ul>";
    margin +:+ "<li><a href='" +:+ metricsPath +:+ "'>metrics</a></li>";
    margin +:+ "<li><a href='" +:+ healthzPath +:+ "'>healthz</a></li>";
    tabs +:+ "</ul>";
    margin +:+ "</body>";
    margin +:+ "</html>" ].

Definition indexHandler : Handler := λ _ w r, Write indexPage w.

(** [prometheus.UninstrumentedHandler()]: the library's handler, which
    gathers from the registered collectors. *)
Variable UninstrumentedHandler : Handler.

(** The routes [metricsServer] registers, in the order of the code. *)
Definition metricsServer : list (string * Handler) :=
  [ (metricsPath, UninstrumentedHandler);
    (healthzPath, healthzHandler);
    ("/", indexHandler) ].

(** The default mux on these patterns: a pattern that does not end in a
    slash matches that path alone, and ["/"] takes every other path. *)
Definition muxHandler (routes : list (string * Handler)) (path : string)
    : option Handler :=
  match list_find (λ route, route.1 = path) routes with
  | Some (_, (_, h)) => Some h
  | None =>
      match list_find (λ route, route.1 = "/") routes with
      | Some (_, (_, h)) => Some h
      | None => None
      end
  end.

Definition NotFound : ResponseWriter → ResponseWriter :=
  λ w, Error w "404 page not found" 404.

(** One request served by [http.ListenAndServe(listenAddress, nil)]. *)
Definition serve (caches : Informers) (req : Request) : ResponseWriter :=
  match muxHandler metricsServer (URLPath req) with
  | Some h => h caches newResponse req
  | None => NotFound newResponse
  end.

End Mirror.

(** A small schema to run the model on: an object is its metadata and a
    replica count or the like. *)
Definition sampleTypes : APITypes :=
  {| Deployment := ObjectMeta * Z; Pod := ObjectMeta * Z;
     Node := ObjectMeta * Z; ReplicationController := ObjectMeta * Z;
     deploymentMeta := fst; podMeta := fst; nodeMeta := fst; rcMeta := fst |}.

Definition named (namespace name : string) (replicas : Z) : ObjectMeta * Z :=
  ({| Namespace := namespace; Name := name |}, replicas).

Definition samplePods : list (@Object sampleTypes) :=
  [ @PodPtr sampleTypes (named "default" "web" 1);
    @PodPtr sampleTypes (named "kube-system" "dns" 1) ].

Definition sampleInformers : @Informers sampleTypes :=
  {| dinf := mirrored [@DeploymentPtr sampleTypes (named "default" "web" 3)] [];
     pinf := mirrored samplePods [];
     ninf := mirrored [@NodePtr sampleTypes (named "" "node-1" 0)] [];
     rinf := mirrored [] [] |}.

Definition replicasOf (x : ObjectMeta * Z) : list Z := [x.2].

Definition get (path : string) : Request :=
  {| Method := "GET"; URLPath := path; Header := [];
     ContentLength := 0; Body := "" |}.

End K8s.


(** ** Package k8s: start-up *)

Module Bootstrap.

(** The flags of the process: package variables, set by [flags.Parse]. *)
Record Flags := {
  inCluster : bool;
  apiserver : string;
  kubeconfig : string;
  help : bool;
  port : Z
}.

(** Their declared defaults. *)
Definition defaultFlags : Flags :=
  {| inCluster := false; apiserver := ""; kubeconfig := "./config";
     help := false; port := 80 |}.

(** [*apiserver = apiservertmp] *)
Definition SetApiServer (apiservertmp : string) (fl : Flags) : Flags :=
  {| inCluster := inCluster fl; apiserver := apiservertmp;
     kubeconfig := kubeconfig fl; help := help fl; port := port fl |}.

(** [restclient.Config]: the two fields the code reads or writes, and the
    rest of it. *)
Record Config (R : Type) := {
  Host : string;
  BearerToken : string;
  Rest : R
}.
Global Arguments Host {R} _.
Global Arguments BearerToken {R} _.
Global Arguments Rest {R} _.

(** What a library call hands back: a value, or an error. *)
Inductive Result (A : Type) : Type :=
  | Ok (a : A)
  | Failed (err : string).
Global Arguments Ok {A} a.
Global Arguments Failed {A} err.

(** The libraries the start-up code calls: pflag ([flags.Parse],
    [flags.PrintDefaults]), client-go's rest and clientcmd packages (the
    two ways to load a configuration), the clientset constructor and the
    discovery call that asks the server for its version. *)
Class ClientLibrary := {
  Settings : Type;
  Clientset : Type;
  Parse : list string → Flags * error;
  PrintDefaults : list string;
  InClusterConfig : Result (Config Settings);
  DefaultClientConfig : Result (Config Settings);
  NewForConfig : Config Settings → Result Clientset;
  ServerVersion : Clientset → error
}.

(** How the process ends up: it exits with a code after printing to
    standard error, it is aborted by [glog.Fatalf], it panics, or it sits
    in [http.ListenAndServe] on an address with the client it built. *)
Inductive Process `{ClientLibrary} :=
  | Exited (code : Z) (stderr : list string)
  | Aborted (msg : string)
  | Crashed (reason : string)
  | Serving (listenAddress : string) (kubeClient : Clientset).

Section Process.
Context `{ClientLibrary}.

(** [config.Host = host] *)
Definition setHost (host : string) (config : Config Settings)
    : Config Settings :=
  {| Host := host; BearerToken := BearerToken config; Rest := Rest config |}.

(** [%v] of a bool. *)
Definition fmtBool (b : bool) : string := if b then "true" else "false".

(** [CreateKubeClient]: the client and the error it returns, and the lines
    it logs with [glog.Infof]. *)
Definition CreateKubeClient (fl : Flags) (strApiServer : string)
    : (option Clientset * error) * list string :=
  let log0 := ["Creating client"] in
  let '(built, log) :=
    if inCluster fl then
      match InClusterConfig with
      | Failed err => (Failed err, log0)
      | Ok config =>
          let config :=
            if decide (apiserver fl ≠ "") then setHost (apiserver fl) config
            else config in
          let tokenPresent :=
            if decide (0 < String.length (BearerToken config))%nat
            then true else false in
          (NewForConfig config,
           (log0 ++ [ "service account token present: " +:+ fmtBool tokenPresent;
                      "service host: " +:+ Host config ])%list)
      end
    else
      match DefaultClientConfig with
      | Failed err => (Failed err, log0)
      | Ok config => (NewForConfig (setHost strApiServer config), log0)
      end in
  match built with
  | Failed err => ((None, Some err), log)
  | Ok kubeClient =>
      let log := (log ++ ["testing communication with server"])%list in
      match ServerVersion kubeClient with
      | Some err =>
          ((None, Some ("ERROR communicating with apiserver: " +:+ err)), log)
      | None => ((Some kubeClient, nil), log)
      end
  end.

(** [fmt.Sprintf(":%d", *port)] *)
Definition listenAddress (fl : Flags) : string := ":" +:+ pretty (port fl).

(** [main], on the arguments of the process: how it ends up, and what it
    logged with [glog.Infof] on the way. *)
Definition main (args : list string) : Process * list string :=
  let '(fl, err) := Parse args in
  match err with
  | Some e => (Aborted ("Error: " +:+ e), [])
  | None =>
      if help fl then
        match args with
        | [] => (Crashed "index out of range", [])
        | prog :: _ =>
            (Exited 0 (("Usage of " +:+ prog +:+ ":") :: PrintDefaults), [])
        end
      else if decide (apiserver fl = "" ∧ inCluster fl = false) then
        (Aborted "--apiserver not set and --in-cluster is false; apiserver must be set to a valid URL",
         [])
      else
        let log := ["apiServer set to: " +:+ apiserver fl] in
        let '((kubeClient, err), created) :=
          CreateKubeClient fl (apiserver fl) in
        let log := (log ++ created)%list in
        match err with
        | Some e => (Aborted ("Failed to create client: " +:+ e), log)
        | None =>
            match kubeClient with
            | None => (Crashed nilDereference, log)
            | Some c =>
                (Serving (listenAddress fl) c,
                 (log ++ ["Starting metrics server: " +:+ listenAddress fl])%list)
            end
        end
  end.

End Process.

(** A library to run the start-up on: a clientset is the host it was built
    for, the server on port 1 of any host named [down] does not answer,
    and the arguments are read one flag at a time. *)
Fixpoint sampleFlags (args : list string) (fl : Flags) : Flags :=
  match args with
  | [] => fl
  | flag :: rest =>
      if decide (flag = "--in-cluster") then
        sampleFlags rest
          {| inCluster := true; apiserver := apiserver fl;
             kubeconfig := kubeconfig fl; help := help fl; port := port fl |}
      else if decide (flag = "-h") then
        sampleFlags rest
          {| inCluster := inCluster fl; apiserver := apiserver fl;
             kubeconfig := kubeconfig fl; help := true; port := port fl |}
      else
        match rest with
        | value :: rest' =>
            if decide (flag = "--apiserver") then
              sampleFlags rest' (SetApiServer value fl)
            else sampleFlags rest fl
        | [] => fl
        end
  end.

Definition sampleLibrary : ClientLibrary :=
  {| Settings := unit;
     Clientset := string;
     Parse := λ args, (sampleFlags (tail args) defaultFlags, nil);
     PrintDefaults := ["      --apiserver string"; "  -h, --help"];
     InClusterConfig :=
       Ok {| Host := "https://10.0.0.1:443"; BearerToken := "secret";
             Rest := tt |};
     DefaultClientConfig :=
       Ok {| Host := "http://localhost:8080"; BearerToken := "";
             Rest := tt |};
     NewForConfig := λ config,
       if decide (Host config = "") then Failed "host must be a URL"
       else Ok (Host config);
     ServerVersion := λ client,
       if decide (client = "http://down:1") then Some "connection refused"
       else nil |}.

End Bootstrap.

(** * Properties *)

(** ** Outcomes and requests *)

Lemma bind_returned {A B} (m : Outcome A) (k : A → Outcome B) b :
  m ≫= k = Returned b → ∃ a, m = Returned a ∧ k a = Returned b.
Proof. destruct m as [a|r]; cbn; [eauto | discriminate]. Qed.

Lemma wf_request_nonempty r :
  wf_request r → Body r ≠ "" → ContentLength r ≠ 0.
Proof.
  intros Hwf Hne Hz. unfold wf_request in Hwf. rewrite Hz in Hwf.
  destruct (Body r) as [|c s]; [done|]. cbn [String.length] in Hwf. lia.
Qed.

Lemma wf_request_zero r :
  wf_request r → ContentLength r = 0 → Body r = "".
Proof.
  intros Hwf Hz. destruct (decide (Body r = "")) as [|Hne]; [done|].
  by destruct (wf_request_nonempty r Hwf Hne).
Qed.

Lemma Error_fresh msg code :
  status (Error newResponse msg code) = code ∧
  written (Error newResponse msg code) = msg +:+ newline.
Proof. done. Qed.

Lemma Write_fresh data :
  status (Write data newResponse) = StatusOK ∧
  written (Write data newResponse) = data.
Proof. done. Qed.

(** ** The push endpoint *)

Module PushFacts.
Import Push.

Section Handler.
Context {V : Type} (Decode : string → @Batch V * error).

Implicit Types (cfg : GlobalConfig) (v p q : MetricValue V).
Implicit Types (pts : list (MetricValue V)) (metrics : @Batch V).

Lemma defaultEndpoint_blank cfg v :
  Endpoint v = "" → Endpoint (defaultEndpoint cfg v) = Hostname cfg.
Proof. intros Hv. unfold defaultEndpoint. by rewrite decide_True. Qed.

Lemma defaultEndpoint_present cfg v :
  Endpoint v ≠ "" → defaultEndpoint cfg v = v.
Proof. intros Hv. unfold defaultEndpoint. by rewrite decide_False. Qed.

Lemma defaultEndpoint_rest cfg v :
  let q := defaultEndpoint cfg v in
  Metric q = Metric v ∧ Value q = Value v ∧ Step q = Step v ∧
  Type_ q = Type_ v ∧ Tags q = Tags v ∧ Timestamp q = Timestamp v.
Proof. cbn. unfold defaultEndpoint. by case_decide. Qed.

Lemma defaultEndpoint_idem cfg v :
  defaultEndpoint cfg (defaultEndpoint cfg v) = defaultEndpoint cfg v.
Proof.
  unfold defaultEndpoint at 2 3. case_decide as Hv.
  - unfold defaultEndpoint. case_decide; done.
  - by apply defaultEndpoint_present.
Qed.

(** The loop on a batch without nil pointers is a map. *)
Lemma rangeMetrics_present cfg pts :
  rangeMetrics cfg (Some <$> pts) =
  Returned (Some <$> (defaultEndpoint cfg <$> pts)).
Proof.
  induction pts as [|p pts IH]; [done|].
  cbn [fmap list_fmap rangeMetrics]. fold (@fmap list _ _ _ (@Some (MetricValue V)) pts).
  by rewrite IH.
Qed.

(** The loop panics exactly on a batch with a nil pointer. *)
Lemma rangeMetrics_nil cfg metrics :
  None ∈ metrics → rangeMetrics cfg metrics = Panicked nilDereference.
Proof.
  induction metrics as [|[v|] rest IH]; intros Hin.
  - by apply elem_of_nil in Hin.
  - apply elem_of_cons in Hin as [|Hin]; [done|].
    cbn [rangeMetrics]. by rewrite IH.
  - done.
Qed.

Lemma rangeMetrics_returned cfg metrics out :
  rangeMetrics cfg metrics = Returned out →
  ∃ pts, metrics = Some <$> pts ∧ out = Some <$> (defaultEndpoint cfg <$> pts).
Proof.
  revert out. induction metrics as [|[v|] rest IH]; intros out Hrun.
  - exists []. by injection Hrun as <-.
  - cbn [rangeMetrics] in Hrun.
    apply bind_returned in Hrun as (rest' & Hrest & Hout).
    destruct (IH _ Hrest) as (pts & -> & ->).
    exists (v :: pts). by injection Hout as <-.
  - discriminate.
Qed.

(** The three ways the handler runs. *)
Lemma pushHandler_blank cfg w req sink :
  ContentLength req = 0 →
  pushHandler Decode cfg w req sink =
  Returned (Error w "body is blank" StatusBadRequest, sink).
Proof. intros Hz. unfold pushHandler. by rewrite decide_True. Qed.

Lemma pushHandler_undecodable cfg w req sink :
  ContentLength req ≠ 0 → (Decode (Body req)).2 ≠ nil →
  pushHandler Decode cfg w req sink =
  Returned (Error w "connot decode body" StatusBadRequest, sink).
Proof.
  intros Hnz Herr. unfold pushHandler. rewrite decide_False by done.
  destruct (Decode (Body req)) as [metrics [e|]]; [done|]. by destruct Herr.
Qed.

Lemma pushHandler_decoded cfg w req sink metrics :
  ContentLength req ≠ 0 → Decode (Body req) = (metrics, nil) →
  pushHandler Decode cfg w req sink =
  metrics' ← rangeMetrics cfg metrics;
  Returned (Write "success" w, SendToTransfer metrics' sink).
Proof.
  intros Hnz Hdec. unfold pushHandler. rewrite decide_False by done.
  by rewrite Hdec.
Qed.

(** What a request that is answered 400 must have been: one of declared
    length zero, or one the decoder refused.  The sink plays no part. *)
Lemma pushHandler_bad_request cfg req sink w' sink' :
  pushHandler Decode cfg newResponse req sink = Returned (w', sink') →
  status w' = StatusBadRequest →
  (ContentLength req = 0 ∨ (Decode (Body req)).2 ≠ nil) ∧ sink' = sink.
Proof.
  intros Hrun Hst. unfold pushHandler in Hrun. case_decide as Hlen.
  - injection Hrun as <- <-. auto.
  - destruct (Decode (Body req)) as [metrics [e|]] eqn:Hdec.
    + injection Hrun as <- <-. split; [right|]; done.
    + apply bind_returned in Hrun as (out & _ & Hret).
      injection Hret as <- <-. discriminate.
Qed.

(** A decoded batch without nil pointers is handed to the sink and
    answered 200, whether or not the sink is up. *)
Lemma pushHandler_accepts cfg req sink pts :
  ContentLength req ≠ 0 → Decode (Body req) = (Some <$> pts, nil) →
  ∃ w', pushHandler Decode cfg newResponse req sink =
          Returned (w', SendToTransfer (Some <$> (defaultEndpoint cfg <$> pts)) sink) ∧
        status w' = StatusOK ∧ written w' = "success".
Proof.
  intros Hnz Hdec. exists (Write "success" newResponse). split; [|done].
  rewrite (pushHandler_decoded _ _ _ _ _ Hnz Hdec).
  by rewrite rangeMetrics_present.
Qed.

(** A decoded batch that holds a nil pointer makes the handler panic,
    whatever decoder produced it. *)
Lemma pushHandler_nil_element cfg w req sink metrics :
  ContentLength req ≠ 0 → Decode (Body req) = (metrics, nil) →
  None ∈ metrics →
  pushHandler Decode cfg w req sink = Panicked nilDereference.
Proof.
  intros Hnz Hdec Hin. rewrite (pushHandler_decoded _ _ _ _ _ Hnz Hdec).
  by rewrite rangeMetrics_nil.
Qed.


(** C1: of a batch of points the handler accepts, the batch handed to the
    sink has the local host name in the Endpoint of every point that came
    with an empty Endpoint, leaves the points that had one as they were,
    leaves every other field of every point as it was, and defaulting it
    once more changes nothing. *)
Theorem C1_missing_endpoint_defaulted cfg req sink pts :
  ContentLength req ≠ 0 →
  Decode (Body req) = (Some <$> pts, nil) →
  ∃ out : list (MetricValue V),
    pushHandler Decode cfg newResponse req sink =
      Returned (Write "success" newResponse,
                SendToTransfer (Some <$> out) sink) ∧
    length out = length pts ∧
    (∀ i p, pts !! i = Some p →
       ∃ q, out !! i = Some q ∧
            (Endpoint p = "" → Endpoint q = Hostname cfg) ∧
            (Endpoint p ≠ "" → q = p) ∧
            Metric q = Metric p ∧ Value q = Value p ∧ Step q = Step p ∧
            Type_ q = Type_ p ∧ Tags q = Tags p ∧
            Timestamp q = Timestamp p) ∧
    rangeMetrics cfg (Some <$> out) = Returned (Some <$> out).
Proof.
  intros Hnz Hdec. exists (defaultEndpoint cfg <$> pts). repeat split.
  - rewrite (pushHandler_decoded _ _ _ _ _ Hnz Hdec).
    by rewrite rangeMetrics_present.
  - by rewrite length_fmap.
  - intros i p Hp. exists (defaultEndpoint cfg p).
    rewrite list_lookup_fmap, Hp. split; [done|].
    split; [apply defaultEndpoint_blank|].
    split; [apply defaultEndpoint_present|].
    apply defaultEndpoint_rest.
  - rewrite rangeMetrics_present. do 2 f_equal.
    rewrite <- list_fmap_compose. apply list_fmap_ext.
    intros _ p _. apply defaultEndpoint_idem.
Qed.

(** C2, as the code has it: a request whose declared length is zero is
    answered 400 with the text "body is blank", whatever its headers, its
    content type, the decoder and the configuration; nothing reaches the
    sink. *)
Theorem C2_blank_length_rejected cfg req sink :
  ContentLength req = 0 →
  ∃ w', pushHandler Decode cfg newResponse req sink = Returned (w', sink) ∧
        status w' = StatusBadRequest ∧
        written w' = "body is blank" +:+ newline.
Proof.
  intros Hz. eexists. split; [by apply pushHandler_blank|]. done.
Qed.

(** C3: a request with a body that the decoder refuses is answered 400
    with the text "connot decode body"; the answer does not depend on the
    configured host name, and the sink is left as it was. *)
Theorem C3_decode_failure_rejected req sink :
  wf_request req → Body req ≠ "" → (Decode (Body req)).2 ≠ nil →
  ∃ w', (∀ cfg, pushHandler Decode cfg newResponse req sink =
                  Returned (w', sink)) ∧
        status w' = StatusBadRequest ∧
        written w' = "connot decode body" +:+ newline.
Proof.
  intros Hwf Hne Herr.
  exists (Error newResponse "connot decode body" StatusBadRequest).
  split; [|done].
  intros cfg. apply pushHandler_undecodable; [|done].
  by apply wf_request_nonempty.
Qed.

(** C10: a request with a body that decodes to a batch of no points is
    not refused: the empty batch is handed to the sink and the answer is
    200 with the body "success". *)
Theorem C10_empty_batch_accepted cfg req sink :
  wf_request req → Body req ≠ "" → Decode (Body req) = ([], nil) →
  ∃ w', pushHandler Decode cfg newResponse req sink =
          Returned (w', SendToTransfer [] sink) ∧
        status w' = StatusOK ∧ written w' = "success".
Proof.
  intros Hwf Hne Hdec. exists (Write "success" newResponse). split; [|done].
  by rewrite (pushHandler_decoded _ _ _ _ _ (wf_request_nonempty _ Hwf Hne) Hdec).
Qed.

End Handler.

Lemma C1_missing_endpoint_defaulted_witness :
  ContentLength (post cpuLoadBody) ≠ 0 ∧
  tableDecode (Body (post cpuLoadBody)) = (Some <$> [cpuLoadPoint], nil) ∧
  ∃ out : list (MetricValue string),
    pushHandler tableDecode localConfig newResponse (post cpuLoadBody) idleSink =
      Returned (Write "success" newResponse,
                SendToTransfer (Some <$> out) idleSink) ∧
    length out = length [cpuLoadPoint] ∧
    (∀ i p, [cpuLoadPoint] !! i = Some p →
       ∃ q, out !! i = Some q ∧
            (Endpoint p = "" → Endpoint q = Hostname localConfig) ∧
            (Endpoint p ≠ "" → q = p) ∧
            Metric q = Metric p ∧ Value q = Value p ∧ Step q = Step p ∧
            Type_ q = Type_ p ∧ Tags q = Tags p ∧
            Timestamp q = Timestamp p) ∧
    rangeMetrics localConfig (Some <$> out) = Returned (Some <$> out).
Proof.
  split; [done|]. split; [reflexivity|].
  apply (C1_missing_endpoint_defaulted tableDecode localConfig
           (post cpuLoadBody) idleSink [cpuLoadPoint]); [done|reflexivity].
Defined.

Lemma C2_blank_length_rejected_witness :
  ContentLength (post "") = 0 ∧
  ∃ w', pushHandler tableDecode localConfig newResponse (post "") idleSink =
          Returned (w', idleSink) ∧
        status w' = StatusBadRequest ∧
        written w' = "body is blank" +:+ newline.
Proof.
  split; [reflexivity|].
  apply (C2_blank_length_rejected tableDecode localConfig (post "") idleSink).
  reflexivity.
Defined.

(** C2, as the spec words it, fails: two requests with an empty body, one
    of declared length zero and one chunked, are answered with different
    texts, so no one text answers every empty body. *)
Lemma C2_blank_text_not_fixed :
  ¬ ∃ text : string, ∀ req : Request,
      wf_request req → Body req = "" →
      ∃ w', pushHandler tableDecode localConfig newResponse req idleSink =
              Returned (w', idleSink) ∧
            status w' = StatusBadRequest ∧ written w' = text.
Proof.
  intros [text Hall].
  destruct (Hall (post "")) as (w0 & H0 & _ & T0); [by intros _|done|].
  destruct (Hall (postChunked "")) as (w1 & H1 & _ & T1);
    [by intros ?|done|].
  cbv in H0, H1. injection H0 as <-. injection H1 as <-.
  cbv in T0, T1. congruence.
Qed.

Lemma C3_decode_failure_rejected_witness :
  wf_request (post "[") ∧ Body (post "[") ≠ "" ∧
  (tableDecode (Body (post "["))).2 ≠ nil ∧
  ∃ w', (∀ cfg, pushHandler tableDecode cfg newResponse (post "[") idleSink =
                  Returned (w', idleSink)) ∧
        status w' = StatusBadRequest ∧
        written w' = "connot decode body" +:+ newline.
Proof.
  assert (Hwf : wf_request (post "[")) by (by intros _).
  assert (Hne : Body (post "[") ≠ "") by done.
  assert (Herr : (tableDecode (Body (post "["))).2 ≠ nil) by done.
  split; [exact Hwf|]. split; [exact Hne|]. split; [exact Herr|].
  exact (C3_decode_failure_rejected tableDecode (post "[") idleSink
           Hwf Hne Herr).
Defined.

(** C4, at the body [[null]]: the decoder reports no error and leaves a
    batch of one nil pointer; the loop dereferences it and the handler
    panics, with nothing written and nothing handed to the sink. *)
Theorem C4_null_element_panics :
  wf_request (post "[null]") ∧
  tableDecode (Body (post "[null]")) = ([None], nil) ∧
  pushHandler tableDecode localConfig newResponse (post "[null]") idleSink =
    Panicked nilDereference.
Proof. split; [by intros _|]. split; reflexivity. Qed.

Lemma C10_empty_batch_accepted_witness :
  wf_request (post "[]") ∧ Body (post "[]") ≠ "" ∧
  tableDecode (Body (post "[]")) = ([], nil) ∧
  ∃ w', pushHandler tableDecode localConfig newResponse (post "[]") idleSink =
          Returned (w', SendToTransfer [] idleSink) ∧
        status w' = StatusOK ∧ written w' = "success".
Proof.
  assert (Hwf : wf_request (post "[]")) by (by intros _).
  assert (Hne : Body (post "[]") ≠ "") by done.
  split; [exact Hwf|]. split; [exact Hne|]. split; [reflexivity|].
  exact (C10_empty_batch_accepted tableDecode localConfig (post "[]") idleSink
           Hwf Hne eq_refl).
Defined.

End PushFacts.

(** ** The resource mirror *)

Module K8sFacts.
Import K8s.

Section Store.
Context `{APITypes}.

Implicit Types (st : gmap Key Object) (o d : Object) (l : list Object).

Lemma keyed_empty : keyed ∅.
Proof. apply map_Forall_empty. Qed.

Lemma keyed_insert st o : keyed st → keyed (<[keyOf o := o]> st).
Proof. intros Hst. by apply map_Forall_insert_2. Qed.

Lemma keyed_delete st k : keyed st → keyed (delete k st).
Proof. intros Hst. by apply map_Forall_delete. Qed.

Lemma keyed_foldl_insert os st :
  keyed st → keyed (foldl (λ acc o, <[keyOf o := o]> acc) st os).
Proof.
  revert st. induction os as [|o os IH]; intros st Hst; [done|].
  cbn [foldl]. by apply IH, keyed_insert.
Qed.

Lemma keyed_replaceAll os : keyed (replaceAll os).
Proof. apply keyed_foldl_insert, keyed_empty. Qed.

Lemma keyed_applyEvent st e : keyed st → keyed (applyEvent st e).
Proof.
  intros Hst. destruct e; cbn [applyEvent];
    auto using keyed_insert, keyed_delete, keyed_replaceAll.
Qed.

Lemma keyed_applyEvents es st : keyed st → keyed (applyEvents st es).
Proof.
  revert st. induction es as [|e es IH]; intros st Hst; [done|].
  cbn [applyEvents foldl]. by apply IH, keyed_applyEvent.
Qed.

Lemma keyed_mirrored initial es : keyed (mirrored initial es).
Proof. apply keyed_applyEvents, keyed_replaceAll. Qed.

(** What a snapshot holds is what the store holds. *)
Lemma Lists_elem_of st l o :
  Lists st l → o ∈ l ↔ ∃ k, st !! k = Some o.
Proof.
  intros Hl. unfold Lists in Hl. rewrite Hl, list_elem_of_fmap. split.
  - intros ([k o'] & -> & Hin). exists k. by apply elem_of_map_to_list.
  - intros [k Hk]. exists (k, o). split; [done|]. by apply elem_of_map_to_list.
Qed.

Lemma Lists_length st l : Lists st l → length l = size st.
Proof.
  intros Hl. unfold Lists in Hl.
  by rewrite Hl, length_fmap, length_map_to_list.
Qed.

Lemma Lists_empty l : Lists ∅ l → l = [].
Proof.
  unfold Lists. rewrite map_to_list_empty. apply Permutation_nil_r.
Qed.

Lemma keyed_keys st : keyed st → keyOf <$> (map_to_list st).*2 = (map_to_list st).*1.
Proof.
  intros Hst. rewrite <- list_fmap_compose. apply list_fmap_ext.
  intros _ [k o] Hin%list_elem_of_lookup_2%elem_of_map_to_list. cbn.
  by apply Hst in Hin.
Qed.

Lemma Lists_NoDup_keys st l : keyed st → Lists st l → NoDup (keyOf <$> l).
Proof.
  intros Hst Hl. unfold Lists in Hl. rewrite Hl, keyed_keys by done.
  apply NoDup_fst_map_to_list.
Qed.

(** A store that holds one kind lists entries of that kind only. *)
Lemma Lists_kind k st l :
  holdsKind k st → Lists st l → Forall (λ o, kindOf o = k) l.
Proof.
  intros Hk Hl. apply Forall_forall. intros o Hin.
  apply (Lists_elem_of _ _ _ Hl) in Hin as [key Hkey]. by apply Hk in Hkey.
Qed.

Lemma deployments_of l :
  Forall (λ o, kindOf o = KDeployment) l → ∃ ds, l = DeploymentPtr <$> ds.
Proof.
  induction 1 as [|o l Ho _ [ds ->]]; [by exists []|].
  destruct o as [c| | |]; try discriminate. by exists (c :: ds).
Qed.

Lemma pods_of l :
  Forall (λ o, kindOf o = KPod) l → ∃ ps, l = PodPtr <$> ps.
Proof.
  induction 1 as [|o l Ho _ [ps ->]]; [by exists []|].
  destruct o as [|m| |]; try discriminate. by exists (m :: ps).
Qed.

Lemma nodes_of l :
  Forall (λ o, kindOf o = KNode) l → ∃ ns, l = NodePtr <$> ns.
Proof.
  induction 1 as [|o l Ho _ [ns ->]]; [by exists []|].
  destruct o as [| |m|]; try discriminate. by exists (m :: ns).
Qed.

Lemma rcs_of l :
  Forall (λ o, kindOf o = KReplicationController) l →
  ∃ rs, l = ReplicationControllerPtr <$> rs.
Proof.
  induction 1 as [|o l Ho _ [rs ->]]; [by exists []|].
  destruct o as [| | |m]; try discriminate. by exists (m :: rs).
Qed.

(** Each loop appends the listed objects, in the order listed. *)
Local Ltac loop_appends xs acc :=
  revert acc; induction xs as [|? ? IH]; intros acc; cbn;
  [by rewrite app_nil_r | by rewrite IH, <- app_assoc].

Lemma rangeDeployments_typed (ds acc : list Deployment) :
  rangeDeployments (DeploymentPtr <$> ds) acc = Returned (acc ++ ds)%list.
Proof. loop_appends ds acc. Qed.

Lemma rangePods_typed (ps acc : list Pod) :
  rangePods (PodPtr <$> ps) acc = Returned (acc ++ ps)%list.
Proof. loop_appends ps acc. Qed.

Lemma rangeNodes_typed (ns : list Node) (machines : NodeList) :
  rangeNodes (NodePtr <$> ns) machines =
  Returned {| Items := (Items machines ++ ns)%list |}.
Proof.
  revert machines. induction ns as [|m ns IH]; intros [items]; cbn.
  - by rewrite app_nil_r.
  - by rewrite IH; cbn; rewrite <- app_assoc.
Qed.

Lemma rangeRCs_typed (rs acc : list ReplicationController) :
  rangeRCs (ReplicationControllerPtr <$> rs) acc = Returned (acc ++ rs)%list.
Proof. loop_appends rs acc. Qed.

(** On the store of its own informer a lister returns every listed object,
    and a nil error. *)
Lemma dplLister_typed st l :
  holdsKind KDeployment st → Lists st l →
  ∃ items, dplLister l = Returned (items, nil) ∧ l = DeploymentPtr <$> items.
Proof.
  intros Hk Hl. destruct (deployments_of l (Lists_kind _ _ _ Hk Hl)) as [ds ->].
  exists ds. split; [|done]. unfold dplLister.
  by rewrite rangeDeployments_typed.
Qed.

Lemma podLister_typed st l :
  holdsKind KPod st → Lists st l →
  ∃ items, podLister l = Returned (items, nil) ∧ l = PodPtr <$> items.
Proof.
  intros Hk Hl. destruct (pods_of l (Lists_kind _ _ _ Hk Hl)) as [ps ->].
  exists ps. split; [|done]. unfold podLister. by rewrite rangePods_typed.
Qed.

Lemma nodeLister_typed st l :
  holdsKind KNode st → Lists st l →
  ∃ machines, nodeLister l = Returned (machines, nil) ∧
              l = NodePtr <$> Items machines.
Proof.
  intros Hk Hl. destruct (nodes_of l (Lists_kind _ _ _ Hk Hl)) as [ns ->].
  exists {| Items := ns |}. split; [|done]. unfold nodeLister.
  by rewrite rangeNodes_typed.
Qed.

Lemma rcLister_typed st l :
  holdsKind KReplicationController st → Lists st l →
  ∃ items, rcLister l = Returned (items, nil) ∧
           l = ReplicationControllerPtr <$> items.
Proof.
  intros Hk Hl. destruct (rcs_of l (Lists_kind _ _ _ Hk Hl)) as [rs ->].
  exists rs. split; [|done]. unfold rcLister. by rewrite rangeRCs_typed.
Qed.

(** No lister ever returns an error of its own. *)
Lemma dplLister_error l items e :
  dplLister l = Returned (items, e) → e = nil.
Proof.
  unfold dplLister. intros (ds & _ & Hret)%bind_returned. by injection Hret.
Qed.

Lemma podLister_error l items e :
  podLister l = Returned (items, e) → e = nil.
Proof.
  unfold podLister. intros (ps & _ & Hret)%bind_returned. by injection Hret.
Qed.

Lemma nodeLister_error l machines e :
  nodeLister l = Returned (machines, e) → e = nil.
Proof.
  unfold nodeLister. intros (ns & _ & Hret)%bind_returned. by injection Hret.
Qed.

Lemma rcLister_error l items e :
  rcLister l = Returned (items, e) → e = nil.
Proof.
  unfold rcLister. intros (rs & _ & Hret)%bind_returned. by injection Hret.
Qed.

(** The store of an informer holds its kind as long as the list and the
    events it is fed do. *)
Lemma holdsKind_foldl_insert k os st :
  holdsKind k st → Forall (λ o, kindOf o = k) os →
  holdsKind k (foldl (λ acc o, <[keyOf o := o]> acc) st os).
Proof.
  revert st. induction os as [|o os IH]; intros st Hst Hos; [done|].
  apply Forall_cons in Hos as [Ho Hos]. cbn [foldl].
  apply IH; [|done]. by apply map_Forall_insert_2.
Qed.

Lemma holdsKind_applyEvent k st e :
  holdsKind k st → Forall (λ o, kindOf o = k) (eventObjects e) →
  holdsKind k (applyEvent st e).
Proof.
  intros Hst He. destruct e as [o|o|o|os]; cbn in *.
  - apply Forall_cons in He as [Ho _]. by apply map_Forall_insert_2.
  - apply Forall_cons in He as [Ho _]. by apply map_Forall_insert_2.
  - by apply map_Forall_delete.
  - apply holdsKind_foldl_insert; [apply map_Forall_empty|done].
Qed.

Lemma holdsKind_mirrored k initial es :
  Forall (λ o, kindOf o = k) initial →
  Forall (λ e, Forall (λ o, kindOf o = k) (eventObjects e)) es →
  holdsKind k (mirrored initial es).
Proof.
  intros Hinit Hes. unfold mirrored, applyEvents.
  assert (Hst : holdsKind k (replaceAll initial))
    by (apply holdsKind_foldl_insert; [apply map_Forall_empty|done]).
  revert Hst. generalize (replaceAll initial).
  induction Hes as [|e es He _ IH]; intros st Hst; [done|].
  cbn [foldl]. by apply IH, holdsKind_applyEvent.
Qed.

(** C5: when the store of a kind holds N objects, the lister of the kind
    returns N typed copies, and they are the store's entries, each once,
    up to order. *)
Theorem C5_listers_return_store_contents (inf : Informers)
    (sd sp sn sr : list Object) :
  wellTyped inf →
  Lists (dinf inf) sd → Lists (pinf inf) sp →
  Lists (ninf inf) sn → Lists (rinf inf) sr →
  (∃ items, DeploymentLister_List dplLister sd = Returned (items, nil) ∧
            length items = size (dinf inf) ∧
            DeploymentPtr <$> items ≡ₚ (map_to_list (dinf inf)).*2) ∧
  (∃ items, PodLister_List podLister sp = Returned (items, nil) ∧
            length items = size (pinf inf) ∧
            PodPtr <$> items ≡ₚ (map_to_list (pinf inf)).*2) ∧
  (∃ machines, NodeLister_List nodeLister sn = Returned (machines, nil) ∧
               length (Items machines) = size (ninf inf) ∧
               NodePtr <$> Items machines ≡ₚ (map_to_list (ninf inf)).*2) ∧
  (∃ items, RCLister_List rcLister sr = Returned (items, nil) ∧
            length items = size (rinf inf) ∧
            ReplicationControllerPtr <$> items ≡ₚ (map_to_list (rinf inf)).*2).
Proof.
  intros (Hd & Hp & Hn & Hr) Ld Lp Ln Lr. repeat split.
  - destruct (dplLister_typed _ _ Hd Ld) as (items & Hret & ->).
    exists items. split; [done|]. split; [|done].
    by rewrite <- (Lists_length _ _ Ld), length_fmap.
  - destruct (podLister_typed _ _ Hp Lp) as (items & Hret & ->).
    exists items. split; [done|]. split; [|done].
    by rewrite <- (Lists_length _ _ Lp), length_fmap.
  - destruct (nodeLister_typed _ _ Hn Ln) as (machines & Hret & ->).
    exists machines. split; [done|]. split; [|done].
    by rewrite <- (Lists_length _ _ Ln), length_fmap.
  - destruct (rcLister_typed _ _ Hr Lr) as (items & Hret & ->).
    exists items. split; [done|]. split; [|done].
    by rewrite <- (Lists_length _ _ Lr), length_fmap.
Qed.

(** C6: on every state of its backing store each of the four listers
    returns, and the error it returns is nil. *)
Theorem C6_listers_return_nil_error (inf : Informers)
    (sd sp sn sr : list Object) :
  wellTyped inf →
  Lists (dinf inf) sd → Lists (pinf inf) sp →
  Lists (ninf inf) sn → Lists (rinf inf) sr →
  (∃ items, DeploymentLister_List dplLister sd = Returned (items, nil)) ∧
  (∃ items, PodLister_List podLister sp = Returned (items, nil)) ∧
  (∃ machines, NodeLister_List nodeLister sn = Returned (machines, nil)) ∧
  (∃ items, RCLister_List rcLister sr = Returned (items, nil)).
Proof.
  intros (Hd & Hp & Hn & Hr) Ld Lp Ln Lr. repeat split.
  - destruct (dplLister_typed _ _ Hd Ld) as (items & Hret & _). eauto.
  - destruct (podLister_typed _ _ Hp Lp) as (items & Hret & _). eauto.
  - destruct (nodeLister_typed _ _ Hn Ln) as (machines & Hret & _). eauto.
  - destruct (rcLister_typed _ _ Hr Lr) as (items & Hret & _). eauto.
Qed.

(** C8: the store keeps one entry per key.  Whatever list and events
    built it, a listing has no two entries of one key; after an update of
    an object the listing holds the new object, it is the only entry of
    its key, and the listing is no longer than before when the key was
    there; after a delete the listing holds no entry of the deleted
    key. *)
Theorem C8_one_entry_per_key (initial : list Object) (es : list Event)
    (o d : Object) (l lu ld : list Object) :
  Lists (mirrored initial es) l →
  Lists (applyEvent (mirrored initial es) (Updated o)) lu →
  Lists (applyEvent (mirrored initial es) (Deleted d)) ld →
  NoDup (keyOf <$> l) ∧
  o ∈ lu ∧ NoDup (keyOf <$> lu) ∧
  Forall (λ x, keyOf x = keyOf o → x = o) lu ∧
  length lu = (if decide (is_Some (mirrored initial es !! keyOf o))
               then length l else S (length l)) ∧
  Forall (λ x, keyOf x ≠ keyOf d) ld.
Proof.
  intros Hl Hlu Hld. pose proof (keyed_mirrored initial es) as Hst.
  set (st := mirrored initial es) in *.
  assert (Hu : keyed (applyEvent st (Updated o)))
    by by apply keyed_applyEvent.
  assert (Hd : keyed (applyEvent st (Deleted d)))
    by by apply keyed_applyEvent.
  split; [exact (Lists_NoDup_keys _ _ Hst Hl)|].
  split.
  { apply (Lists_elem_of _ _ _ Hlu). exists (keyOf o). cbn.
    apply lookup_insert_eq. }
  split; [exact (Lists_NoDup_keys _ _ Hu Hlu)|].
  split.
  { apply Forall_forall. intros x Hx Hkey.
    apply (Lists_elem_of _ _ _ Hlu) in Hx as [k Hk].
    pose proof (Hu _ _ Hk) as Hkx. cbn in Hkx, Hk. subst k.
    rewrite Hkey, lookup_insert_eq in Hk. by injection Hk. }
  split.
  { rewrite (Lists_length _ _ Hlu), (Lists_length _ _ Hl). cbn.
    case_decide as Hsome.
    - by apply map_size_insert_Some.
    - apply map_size_insert_None. by apply eq_None_not_Some. }
  apply Forall_forall. intros x Hx Hkey.
  apply (Lists_elem_of _ _ _ Hld) in Hx as [k Hk].
  pose proof (Hd _ _ Hk) as Hkx. cbn in Hkx, Hk. subst k.
  by rewrite Hkey, lookup_delete_eq in Hk.
Qed.

(** C9: on an empty store each lister returns the empty list and a nil
    error, and a collector that walks the result emits no sample. *)
Theorem C9_empty_store_lists_nothing (snapshot : list Object)
    (Sample : Type)
    (ofDeployment : Deployment → list Sample) (ofPod : Pod → list Sample)
    (ofNode : Node → list Sample)
    (ofRC : ReplicationController → list Sample) :
  Lists ∅ snapshot →
  DeploymentLister_List dplLister snapshot = Returned ([], nil) ∧
  PodLister_List podLister snapshot = Returned ([], nil) ∧
  NodeLister_List nodeLister snapshot = Returned ({| Items := [] |}, nil) ∧
  RCLister_List rcLister snapshot = Returned ([], nil) ∧
  let registered := InitializeMetricCollection in
  collect id ofDeployment
    (DeploymentLister_List (deploymentCollector_store registered) snapshot) = [] ∧
  collect id ofPod
    (PodLister_List (podCollector_store registered) snapshot) = [] ∧
  collect Items ofNode
    (NodeLister_List (nodeCollector_store registered) snapshot) = [] ∧
  collect id ofRC
    (RCLister_List (replicationcontrollerCollector_store registered) snapshot) = [].
Proof. intros ->%Lists_empty. by repeat split. Qed.

(** C7: whatever the request holds and whatever the caches hold, a request
    to the health path is answered 200 with the body "ok". *)
Theorem C7_healthz_always_ok (metrics : Handler) (caches : Informers)
    (req : Request) :
  URLPath req = healthzPath →
  status (serve metrics caches req) = StatusOK ∧
  written (serve metrics caches req) = "ok".
Proof. intros Hpath. unfold serve. rewrite Hpath. by cbv. Qed.

End Store.

(** The sample schema, for the runs below. *)
#[local] Existing Instance sampleTypes.

Lemma sampleInformers_wellTyped : wellTyped sampleInformers.
Proof.
  repeat split; apply holdsKind_mirrored; by repeat constructor.
Qed.

Lemma C5_listers_return_store_contents_witness :
  let inf := sampleInformers in
  let sd := (map_to_list (dinf inf)).*2 in
  let sp := (map_to_list (pinf inf)).*2 in
  let sn := (map_to_list (ninf inf)).*2 in
  let sr := (map_to_list (rinf inf)).*2 in
  wellTyped inf ∧
  Lists (dinf inf) sd ∧ Lists (pinf inf) sp ∧
  Lists (ninf inf) sn ∧ Lists (rinf inf) sr ∧
  (∃ items, DeploymentLister_List dplLister sd = Returned (items, nil) ∧
            length items = size (dinf inf) ∧
            DeploymentPtr <$> items ≡ₚ (map_to_list (dinf inf)).*2) ∧
  (∃ items, PodLister_List podLister sp = Returned (items, nil) ∧
            length items = size (pinf inf) ∧
            PodPtr <$> items ≡ₚ (map_to_list (pinf inf)).*2) ∧
  (∃ machines, NodeLister_List nodeLister sn = Returned (machines, nil) ∧
               length (Items machines) = size (ninf inf) ∧
               NodePtr <$> Items machines ≡ₚ (map_to_list (ninf inf)).*2) ∧
  (∃ items, RCLister_List rcLister sr = Returned (items, nil) ∧
            length items = size (rinf inf) ∧
            ReplicationControllerPtr <$> items ≡ₚ (map_to_list (rinf inf)).*2).
Proof.
  intros inf sd sp sn sr.
  split; [exact sampleInformers_wellTyped|].
  do 4 (split; [by unfold Lists|]).
  apply (C5_listers_return_store_contents inf sd sp sn sr);
    [exact sampleInformers_wellTyped|by unfold Lists..].
Defined.

Lemma C6_listers_return_nil_error_witness :
  let inf := sampleInformers in
  let sd := (map_to_list (dinf inf)).*2 in
  let sp := (map_to_list (pinf inf)).*2 in
  let sn := (map_to_list (ninf inf)).*2 in
  let sr := (map_to_list (rinf inf)).*2 in
  wellTyped inf ∧
  Lists (dinf inf) sd ∧ Lists (pinf inf) sp ∧
  Lists (ninf inf) sn ∧ Lists (rinf inf) sr ∧
  (∃ items, DeploymentLister_List dplLister sd = Returned (items, nil)) ∧
  (∃ items, PodLister_List podLister sp = Returned (items, nil)) ∧
  (∃ machines, NodeLister_List nodeLister sn = Returned (machines, nil)) ∧
  (∃ items, RCLister_List rcLister sr = Returned (items, nil)).
Proof.
  intros inf sd sp sn sr.
  split; [exact sampleInformers_wellTyped|].
  do 4 (split; [by unfold Lists|]).
  apply (C6_listers_return_nil_error inf sd sp sn sr);
    [exact sampleInformers_wellTyped|by unfold Lists..].
Defined.

Lemma C7_healthz_always_ok_witness :
  URLPath (get "/healthz") = healthzPath ∧
  status (serve indexHandler sampleInformers (get "/healthz")) = StatusOK ∧
  written (serve indexHandler sampleInformers (get "/healthz")) = "ok".
Proof.
  split; [reflexivity|].
  apply (C7_healthz_always_ok indexHandler sampleInformers (get "/healthz")).
  reflexivity.
Defined.

Lemma C8_one_entry_per_key_witness :
  let st := mirrored samplePods [] in
  let o := @PodPtr sampleTypes (named "default" "web" 2) in
  let d := @PodPtr sampleTypes (named "kube-system" "dns" 1) in
  let l := (map_to_list st).*2 in
  let lu := (map_to_list (applyEvent st (Updated o))).*2 in
  let ld := (map_to_list (applyEvent st (Deleted d))).*2 in
  Lists st l ∧ Lists (applyEvent st (Updated o)) lu ∧
  Lists (applyEvent st (Deleted d)) ld ∧
  NoDup (keyOf <$> l) ∧
  o ∈ lu ∧ NoDup (keyOf <$> lu) ∧
  Forall (λ x, keyOf x = keyOf o → x = o) lu ∧
  length lu = (if decide (is_Some (st !! keyOf o))
               then length l else S (length l)) ∧
  Forall (λ x, keyOf x ≠ keyOf d) ld.
Proof.
  intros st o d l lu ld.
  do 3 (split; [by unfold Lists|]).
  apply (C8_one_entry_per_key samplePods [] o d l lu ld); by unfold Lists.
Defined.

Lemma C9_empty_store_lists_nothing_witness :
  Lists (∅ : gmap Key (@Object sampleTypes)) [] ∧
  DeploymentLister_List dplLister [] = Returned ([], nil) ∧
  PodLister_List podLister [] = Returned ([], nil) ∧
  NodeLister_List nodeLister [] = Returned ({| Items := [] |}, nil) ∧
  RCLister_List rcLister [] = Returned ([], nil) ∧
  collect id (replicasOf : @Deployment sampleTypes → list Z) (dplLister []) = [] ∧
  collect id (replicasOf : @Pod sampleTypes → list Z) (podLister []) = [] ∧
  collect Items (replicasOf : @Node sampleTypes → list Z) (nodeLister []) = [] ∧
  collect id (replicasOf : @ReplicationController sampleTypes → list Z)
    (rcLister []) = [].
Proof.
  assert (Hl : Lists (∅ : gmap Key (@Object sampleTypes)) []).
  { unfold Lists. by rewrite map_to_list_empty. }
  split; [exact Hl|].
  exact (C9_empty_store_lists_nothing (H := sampleTypes) [] Z
           replicasOf replicasOf replicasOf replicasOf Hl).
Defined.

End K8sFacts.

(** ** More on the push endpoint *)

Module PushCoverage.
Import Push PushFacts.

Section Handler.
Context {V : Type} (Decode : string → @Batch V * error).

Implicit Types (cfg : GlobalConfig) (metrics b : @Batch V).

Lemma present_points metrics :
  None ∉ metrics → ∃ pts : list (MetricValue V), metrics = Some <$> pts.
Proof.
  induction metrics as [|[v|] rest IH]; intros Hnone.
  - by exists [].
  - destruct IH as [pts ->]; [by intros ?; apply Hnone; right|].
    by exists (v :: pts).
  - destruct Hnone. by left.
Qed.

Lemma fmap_Some_present (pts : list (MetricValue V)) : None ∉ Some <$> pts.
Proof. by intros (p & ? & _)%list_elem_of_fmap. Qed.

Lemma rangeMetrics_cases cfg metrics :
  (None ∈ metrics ∧ rangeMetrics cfg metrics = Panicked nilDereference) ∨
  (∃ pts, metrics = Some <$> pts ∧
          rangeMetrics cfg metrics =
            Returned (Some <$> (defaultEndpoint cfg <$> pts))).
Proof.
  assert (Hcases : None ∈ metrics ∨ None ∉ metrics).
  { induction metrics as [|[v|] rest [IH|IH]].
    - right. by intros ?%elem_of_nil.
    - left. by right.
    - right. by intros [?|?]%elem_of_cons.
    - left. by left.
    - left. by left. }
  destruct Hcases as [Hin|Hnone].
  - left. split; [done|]. by apply rangeMetrics_nil.
  - right. destruct (present_points _ Hnone) as [pts ->].
    exists pts. split; [done|]. apply rangeMetrics_present.
Qed.

(** An answer of 200 means that the length was declared non-zero, the body
    decoded without error into points none of which is nil, and exactly
    one batch, as long as the decoded one, was handed to the sink. *)
Theorem pushHandler_ok_means cfg req sink w' sink' :
  pushHandler Decode cfg newResponse req sink = Returned (w', sink') →
  status w' = StatusOK →
  ContentLength req ≠ 0 ∧ (Decode (Body req)).2 = nil ∧
  (None ∉ (Decode (Body req)).1) ∧ written w' = "success" ∧
  ∃ b, sink' = SendToTransfer b sink ∧
       handed sink' = (handed sink ++ [b])%list ∧
       length b = length (Decode (Body req)).1 ∧ (None ∉ b).
Proof.
  intros Hrun Hst. unfold pushHandler in Hrun. case_decide as Hlen.
  { injection Hrun as <- <-. discriminate. }
  destruct (Decode (Body req)) as [metrics [e|]] eqn:Hdec.
  { injection Hrun as <- <-. discriminate. }
  apply bind_returned in Hrun as (out & Hout & Hret).
  injection Hret as <- <-.
  destruct (rangeMetrics_cases cfg metrics) as [[_ Hp]|(pts & -> & Hr)];
    [congruence|].
  rewrite Hr in Hout. injection Hout as <-.
  do 2 (split; [done|]). split; [apply fmap_Some_present|].
  split; [done|]. eexists. split; [done|]. split; [done|].
  split; [cbn; by rewrite !length_fmap|apply fmap_Some_present].
Qed.

(** What is answered does not depend on the sink: two runs that differ in
    the sink alone write the same response, or panic alike. *)
Theorem pushHandler_ignores_sink cfg w req sink1 sink2 :
  match pushHandler Decode cfg w req sink1,
        pushHandler Decode cfg w req sink2 with
  | Returned (w1, _), Returned (w2, _) => w1 = w2
  | Panicked r1, Panicked r2 => r1 = r2
  | _, _ => False
  end.
Proof.
  unfold pushHandler. case_decide; [done|].
  destruct (Decode (Body req)) as [metrics [e|]]; [done|].
  by destruct (rangeMetrics cfg metrics).
Qed.

(** The handler panics exactly when the length is declared non-zero and
    the body decodes without error into a batch that holds a nil
    pointer. *)
Theorem pushHandler_panics_iff cfg w req sink :
  (∃ r, pushHandler Decode cfg w req sink = Panicked r) ↔
  ContentLength req ≠ 0 ∧ (Decode (Body req)).2 = nil ∧
  (None ∈ (Decode (Body req)).1).
Proof.
  split.
  - intros [r Hrun]. unfold pushHandler in Hrun. case_decide; [done|].
    destruct (Decode (Body req)) as [metrics [e|]]; [done|].
    do 2 (split; [done|]). cbn.
    destruct (rangeMetrics_cases cfg metrics) as [[Hin _]|(pts & _ & Hr)];
      [done|].
    by rewrite Hr in Hrun.
  - intros (Hnz & Herr & Hin). exists nilDereference.
    destruct (Decode (Body req)) as [metrics e] eqn:Hdec. cbn in Herr, Hin.
    subst e. by apply (pushHandler_nil_element Decode _ _ _ _ metrics).
Qed.

(** With a host name configured, no point reaches the sink with an empty
    Endpoint. *)
Theorem pushHandler_leaves_no_blank_endpoint cfg req sink metrics :
  Hostname cfg ≠ "" →
  ContentLength req ≠ 0 → Decode (Body req) = (metrics, nil) →
  None ∉ metrics →
  ∃ b, pushHandler Decode cfg newResponse req sink =
         Returned (Write "success" newResponse, SendToTransfer b sink) ∧
       Forall (λ v, ∃ p, v = Some p ∧ Endpoint p ≠ "") b.
Proof.
  intros Hhost Hnz Hdec [pts ->]%present_points.
  exists (Some <$> (defaultEndpoint cfg <$> pts)). split.
  - rewrite (pushHandler_decoded _ _ _ _ _ _ Hnz Hdec).
    by rewrite rangeMetrics_present.
  - apply Forall_fmap, Forall_fmap, Forall_forall. intros p _. cbn.
    eexists. split; [done|]. unfold defaultEndpoint. by case_decide.
Qed.

(** With no host name configured, defaulting changes nothing: the batch
    reaches the sink as it was decoded. *)
Theorem pushHandler_blank_hostname cfg req sink metrics :
  Hostname cfg = "" →
  ContentLength req ≠ 0 → Decode (Body req) = (metrics, nil) →
  None ∉ metrics →
  pushHandler Decode cfg newResponse req sink =
    Returned (Write "success" newResponse, SendToTransfer metrics sink).
Proof.
  intros Hhost Hnz Hdec [pts ->]%present_points.
  rewrite (pushHandler_decoded _ _ _ _ _ _ Hnz Hdec), rangeMetrics_present.
  assert (Hsame : defaultEndpoint cfg <$> pts = pts).
  { clear - Hhost. induction pts as [|p pts IH]; [done|].
    cbn. rewrite IH. f_equal.
    unfold defaultEndpoint. case_decide as Hp; [|done].
    destruct p. cbn in *. unfold setEndpoint. cbn. by rewrite Hhost, Hp. }
  by rewrite Hsame.
Qed.

End Handler.

Lemma pushHandler_ok_means_witness :
  let req := post cpuLoadBody in
  let w' := Write "success" newResponse in
  let sink' :=
    SendToTransfer [Some (defaultEndpoint localConfig cpuLoadPoint)] idleSink in
  pushHandler tableDecode localConfig newResponse req idleSink =
    Returned (w', sink') ∧
  status w' = StatusOK ∧
  ContentLength req ≠ 0 ∧ (tableDecode (Body req)).2 = nil ∧
  (None ∉ (tableDecode (Body req)).1) ∧ written w' = "success" ∧
  ∃ b, sink' = SendToTransfer b idleSink ∧
       handed sink' = (handed idleSink ++ [b])%list ∧
       length b = length (tableDecode (Body req)).1 ∧ (None ∉ b).
Proof.
  intros req w' sink'.
  assert (Hrun : pushHandler tableDecode localConfig newResponse req idleSink =
                 Returned (w', sink')) by reflexivity.
  split; [exact Hrun|]. split; [reflexivity|].
  exact (pushHandler_ok_means tableDecode localConfig req idleSink w' sink'
           Hrun eq_refl).
Defined.

Lemma pushHandler_leaves_no_blank_endpoint_witness :
  Hostname localConfig ≠ "" ∧
  ContentLength (post cpuLoadBody) ≠ 0 ∧
  tableDecode (Body (post cpuLoadBody)) = ([Some cpuLoadPoint], nil) ∧
  (None ∉ [Some cpuLoadPoint]) ∧
  ∃ b, pushHandler tableDecode localConfig newResponse (post cpuLoadBody)
         idleSink =
         Returned (Write "success" newResponse, SendToTransfer b idleSink) ∧
       Forall (λ v, ∃ p, v = Some p ∧ Endpoint p ≠ "") b.
Proof.
  assert (Hhost : Hostname localConfig ≠ "") by done.
  assert (Hnz : ContentLength (post cpuLoadBody) ≠ 0) by done.
  assert (Hnone : None ∉ [Some cpuLoadPoint])
    by (intros Hin; by repeat (apply elem_of_cons in Hin as [?|Hin];
                                 [done|]; try apply elem_of_nil in Hin)).
  do 3 (split; [done|]). split; [exact Hnone|].
  exact (pushHandler_leaves_no_blank_endpoint tableDecode localConfig
           (post cpuLoadBody) idleSink [Some cpuLoadPoint]
           Hhost Hnz eq_refl Hnone).
Defined.

Lemma pushHandler_blank_hostname_witness :
  let cfg := {| Hostname := "" |} in
  Hostname cfg = "" ∧
  ContentLength (post cpuLoadBody) ≠ 0 ∧
  tableDecode (Body (post cpuLoadBody)) = ([Some cpuLoadPoint], nil) ∧
  (None ∉ [Some cpuLoadPoint]) ∧
  pushHandler tableDecode cfg newResponse (post cpuLoadBody) idleSink =
    Returned (Write "success" newResponse,
              SendToTransfer [Some cpuLoadPoint] idleSink).
Proof.
  intros cfg.
  assert (Hnz : ContentLength (post cpuLoadBody) ≠ 0) by done.
  assert (Hnone : None ∉ [Some cpuLoadPoint])
    by (intros Hin; by repeat (apply elem_of_cons in Hin as [?|Hin];
                                 [done|]; try apply elem_of_nil in Hin)).
  do 3 (split; [done|]). split; [exact Hnone|].
  exact (pushHandler_blank_hostname tableDecode cfg (post cpuLoadBody)
           idleSink [Some cpuLoadPoint] eq_refl Hnz eq_refl Hnone).
Defined.

Lemma pushHandler_bad_request_witness :
  let w' := Error newResponse "connot decode body" StatusBadRequest in
  pushHandler tableDecode localConfig newResponse (post "[") idleSink =
    Returned (w', idleSink) ∧
  status w' = StatusBadRequest ∧
  (ContentLength (post "[") = 0 ∨ (tableDecode (Body (post "["))).2 ≠ nil) ∧
  idleSink = idleSink.
Proof.
  intros w'.
  assert (Hrun : pushHandler tableDecode localConfig newResponse (post "[")
                   idleSink = Returned (w', idleSink)) by reflexivity.
  split; [exact Hrun|]. split; [reflexivity|].
  exact (pushHandler_bad_request tableDecode localConfig (post "[") idleSink
           w' idleSink Hrun eq_refl).
Defined.


End PushCoverage.

(** ** More on the listers and the scrape server *)

Module K8sCoverage.
Import K8s K8sFacts.

Section Listers.
Context `{APITypes}.

Implicit Types (l : list Object).

(** A loop that returns has seen entries of its kind only, and returns
    them after what it started with; a loop that panics has met an entry
    of another kind. *)
Lemma rangeDeployments_cases l (acc : list Deployment) :
  (∃ ds, l = DeploymentPtr <$> ds ∧
         rangeDeployments l acc = Returned (acc ++ ds)%list) ∨
  (Exists (λ o, kindOf o ≠ KDeployment) l ∧
   rangeDeployments l acc = Panicked badAssertion).
Proof.
  revert acc. induction l as [|o l IH]; intros acc.
  - left. exists []. by rewrite app_nil_r.
  - destruct o as [c|m|m|m]; cbn [rangeDeployments];
      try (right; split; [by left|done]).
    destruct (IH (acc ++ [c])%list) as [(ds & -> & Hr)|[Hex Hr]].
    + left. exists (c :: ds). by rewrite Hr, <- app_assoc.
    + right. split; [by right|done].
Qed.

Lemma rangePods_cases l (acc : list Pod) :
  (∃ ps, l = PodPtr <$> ps ∧ rangePods l acc = Returned (acc ++ ps)%list) ∨
  (Exists (λ o, kindOf o ≠ KPod) l ∧
   rangePods l acc = Panicked badAssertion).
Proof.
  revert acc. induction l as [|o l IH]; intros acc.
  - left. exists []. by rewrite app_nil_r.
  - destruct o as [c|m|m|m]; cbn [rangePods];
      try (right; split; [by left|done]).
    destruct (IH (acc ++ [m])%list) as [(ps & -> & Hr)|[Hex Hr]].
    + left. exists (m :: ps). by rewrite Hr, <- app_assoc.
    + right. split; [by right|done].
Qed.

Lemma rangeNodes_cases l (machines : NodeList) :
  (∃ ns, l = NodePtr <$> ns ∧
         rangeNodes l machines =
           Returned {| Items := (Items machines ++ ns)%list |}) ∨
  (Exists (λ o, kindOf o ≠ KNode) l ∧
   rangeNodes l machines = Panicked badAssertion).
Proof.
  revert machines. induction l as [|o l IH]; intros [items].
  - left. exists []. cbn. by rewrite app_nil_r.
  - destruct o as [c|m|m|m]; cbn [rangeNodes];
      try (right; split; [by left|done]).
    destruct (IH {| Items := (items ++ [m])%list |})
      as [(ns & -> & Hr)|[Hex Hr]].
    + left. exists (m :: ns). cbn in *. by rewrite Hr, <- app_assoc.
    + right. split; [by right|done].
Qed.

Lemma rangeRCs_cases l (acc : list ReplicationController) :
  (∃ rs, l = ReplicationControllerPtr <$> rs ∧
         rangeRCs l acc = Returned (acc ++ rs)%list) ∨
  (Exists (λ o, kindOf o ≠ KReplicationController) l ∧
   rangeRCs l acc = Panicked badAssertion).
Proof.
  revert acc. induction l as [|o l IH]; intros acc.
  - left. exists []. by rewrite app_nil_r.
  - destruct o as [c|m|m|m]; cbn [rangeRCs];
      try (right; split; [by left|done]).
    destruct (IH (acc ++ [m])%list) as [(rs & -> & Hr)|[Hex Hr]].
    + left. exists (m :: rs). by rewrite Hr, <- app_assoc.
    + right. split; [by right|done].
Qed.

Lemma typed_not_foreign {T} (ptr : T → Object) k (xs : list T) :
  (∀ x, kindOf (ptr x) = k) → ¬ Exists (λ o, kindOf o ≠ k) (ptr <$> xs).
Proof.
  intros Hk (o & (x & -> & _)%list_elem_of_fmap & Hne)%Exists_exists.
  by destruct Hne.
Qed.

Lemma fmap_ptr_inj {T} (ptr : T → Object) (xs ys : list T) :
  Inj (=) (=) ptr → ptr <$> xs = ptr <$> ys → xs = ys.
Proof. intros Hinj. apply (inj (fmap ptr)). Qed.

(** A lister returns exactly when every listed entry is of its kind, and
    then it returns the listed objects, all of them, in the order listed,
    with a nil error. *)
Theorem listers_return_the_listing :
  (∀ l items e,
     DeploymentLister_List dplLister l = Returned (items, e) ↔
     e = nil ∧ l = DeploymentPtr <$> items) ∧
  (∀ l items e,
     PodLister_List podLister l = Returned (items, e) ↔
     e = nil ∧ l = PodPtr <$> items) ∧
  (∀ l machines e,
     NodeLister_List nodeLister l = Returned (machines, e) ↔
     e = nil ∧ l = NodePtr <$> Items machines) ∧
  (∀ l items e,
     RCLister_List rcLister l = Returned (items, e) ↔
     e = nil ∧ l = ReplicationControllerPtr <$> items).
Proof.
  split; [|split; [|split]].
  - unfold DeploymentLister_List, dplLister. intros l items e. split.
    + intros Hrun.
      destruct (rangeDeployments_cases l []) as [(xs & -> & Hr)|[_ Hr]];
        rewrite Hr in Hrun; [|discriminate].
      cbn in Hrun. by injection Hrun as <- <-.
    + intros [-> ->]. by rewrite rangeDeployments_typed.
  - unfold PodLister_List, podLister. intros l items e. split.
    + intros Hrun.
      destruct (rangePods_cases l []) as [(xs & -> & Hr)|[_ Hr]];
        rewrite Hr in Hrun; [|discriminate].
      cbn in Hrun. by injection Hrun as <- <-.
    + intros [-> ->]. by rewrite rangePods_typed.
  - unfold NodeLister_List, nodeLister. intros l machines e. split.
    + intros Hrun.
      destruct (rangeNodes_cases l {| Items := [] |})
        as [(xs & -> & Hr)|[_ Hr]];
        rewrite Hr in Hrun; [|discriminate].
      cbn in Hrun. by injection Hrun as <- <-.
    + intros [-> ->]. rewrite rangeNodes_typed. by destruct machines.
  - unfold RCLister_List, rcLister. intros l items e. split.
    + intros Hrun.
      destruct (rangeRCs_cases l []) as [(xs & -> & Hr)|[_ Hr]];
        rewrite Hr in Hrun; [|discriminate].
      cbn in Hrun. by injection Hrun as <- <-.
    + intros [-> ->]. by rewrite rangeRCs_typed.
Qed.

(** A lister panics exactly when the listing holds an entry of another
    kind: the type assertion has no second result to test. *)
Theorem listers_panic_on_foreign_entry :
  (∀ l, (∃ r, DeploymentLister_List dplLister l = Panicked r) ↔
        Exists (λ o, kindOf o ≠ KDeployment) l) ∧
  (∀ l, (∃ r, PodLister_List podLister l = Panicked r) ↔
        Exists (λ o, kindOf o ≠ KPod) l) ∧
  (∀ l, (∃ r, NodeLister_List nodeLister l = Panicked r) ↔
        Exists (λ o, kindOf o ≠ KNode) l) ∧
  (∀ l, (∃ r, RCLister_List rcLister l = Panicked r) ↔
        Exists (λ o, kindOf o ≠ KReplicationController) l).
Proof.
  split; [|split; [|split]]; intros l; split.
  - intros [r Hrun]. unfold DeploymentLister_List, dplLister in Hrun.
    destruct (rangeDeployments_cases l []) as [(xs & -> & Hr)|[Hex Hr]];
      [by rewrite Hr in Hrun|done].
  - intros Hex. unfold DeploymentLister_List, dplLister.
    destruct (rangeDeployments_cases l []) as [(xs & -> & Hr)|[_ Hr]].
    + exfalso. revert Hex. by apply typed_not_foreign.
    + exists badAssertion. by rewrite Hr.
  - intros [r Hrun]. unfold PodLister_List, podLister in Hrun.
    destruct (rangePods_cases l []) as [(xs & -> & Hr)|[Hex Hr]];
      [by rewrite Hr in Hrun|done].
  - intros Hex. unfold PodLister_List, podLister.
    destruct (rangePods_cases l []) as [(xs & -> & Hr)|[_ Hr]].
    + exfalso. revert Hex. by apply typed_not_foreign.
    + exists badAssertion. by rewrite Hr.
  - intros [r Hrun]. unfold NodeLister_List, nodeLister in Hrun.
    destruct (rangeNodes_cases l {| Items := [] |})
      as [(xs & -> & Hr)|[Hex Hr]]; [by rewrite Hr in Hrun|done].
  - intros Hex. unfold NodeLister_List, nodeLister.
    destruct (rangeNodes_cases l {| Items := [] |})
      as [(xs & -> & Hr)|[_ Hr]].
    + exfalso. revert Hex. by apply typed_not_foreign.
    + exists badAssertion. by rewrite Hr.
  - intros [r Hrun]. unfold RCLister_List, rcLister in Hrun.
    destruct (rangeRCs_cases l []) as [(xs & -> & Hr)|[Hex Hr]];
      [by rewrite Hr in Hrun|done].
  - intros Hex. unfold RCLister_List, rcLister.
    destruct (rangeRCs_cases l []) as [(xs & -> & Hr)|[_ Hr]].
    + exfalso. revert Hex. by apply typed_not_foreign.
    + exists badAssertion. by rewrite Hr.
Qed.


End Listers.

#[local] Existing Instance sampleTypes.


End K8sCoverage.

(** ** Start-up *)

Module BootstrapFacts.
Import Bootstrap.

Section Process.
Context `{ClientLibrary}.

Implicit Types (fl : Flags) (c : Clientset) (loaded : Config Settings).

Lemma setHost_same loaded : setHost (Host loaded) loaded = loaded.
Proof. by destruct loaded. Qed.

(** The run of [CreateKubeClient], step by step: the configuration is
    loaded, the host is set, the client is built, the server is asked. *)
Lemma CreateKubeClient_steps fl strApiServer :
  let load := if inCluster fl then InClusterConfig else DefaultClientConfig in
  let result := (CreateKubeClient fl strApiServer).1 in
  match load with
  | Failed err => result = (None, Some err)
  | Ok loaded =>
      let host :=
        if inCluster fl
        then (if decide (apiserver fl ≠ "") then apiserver fl else Host loaded)
        else strApiServer in
      match NewForConfig (setHost host loaded) with
      | Failed err => result = (None, Some err)
      | Ok c =>
          match ServerVersion c with
          | Some err =>
              result =
              (None, Some ("ERROR communicating with apiserver: " +:+ err))
          | None => result = (Some c, nil)
          end
      end
  end.
Proof.
  unfold CreateKubeClient. destruct (inCluster fl); cbn zeta.
  - destruct InClusterConfig as [loaded|err]; [|done].
    destruct (decide (apiserver fl ≠ "")); rewrite ?setHost_same.
    + destruct (NewForConfig _) as [c|err]; [|done].
      by destruct (ServerVersion c).
    + destruct (NewForConfig _) as [c|err]; [|done].
      by destruct (ServerVersion c).
  - destruct DefaultClientConfig as [loaded|err]; [|done].
    destruct (NewForConfig _) as [c|err]; [|done].
    by destruct (ServerVersion c).
Qed.


(** A client that [CreateKubeClient] returns was built from the loaded
    configuration with the host replaced (in the cluster: by the apiserver
    flag when it is set, else left as loaded; outside: by the argument),
    and the server answered it. *)
Theorem CreateKubeClient_client_is_checked fl strApiServer c err :
  (CreateKubeClient fl strApiServer).1 = (Some c, err) →
  err = nil ∧
  ∃ loaded,
    (if inCluster fl then InClusterConfig else DefaultClientConfig) =
      Ok loaded ∧
    NewForConfig
      (setHost (if inCluster fl
                then (if decide (apiserver fl ≠ "") then apiserver fl
                      else Host loaded)
                else strApiServer) loaded) = Ok c ∧
    ServerVersion c = nil.
Proof.
  intros Hrun. pose proof (CreateKubeClient_steps fl strApiServer) as Hsteps.
  cbn zeta in Hsteps. rewrite Hrun in Hsteps.
  destruct (if inCluster fl then _ else _) as [loaded|e]; [|done].
  destruct (NewForConfig _) as [c'|e] eqn:Hnew; [|done].
  destruct (ServerVersion c') eqn:Hver; [done|].
  injection Hsteps as -> ->. split; [done|]. exists loaded. by rewrite Hnew.
Qed.

(** An error that [CreateKubeClient] returns comes with no client, and is
    the error of the load or of the constructor as it was, or the error
    of the version call behind a fixed prefix. *)
Theorem CreateKubeClient_error_source fl strApiServer
    (kubeClient : option Clientset) err :
  (CreateKubeClient fl strApiServer).1 = (kubeClient, Some err) →
  kubeClient = None ∧
  ((if inCluster fl then InClusterConfig else DefaultClientConfig) =
     Failed err ∨
   (∃ loaded,
      (if inCluster fl then InClusterConfig else DefaultClientConfig) =
        Ok loaded ∧
      NewForConfig
        (setHost (if inCluster fl
                  then (if decide (apiserver fl ≠ "") then apiserver fl
                        else Host loaded)
                  else strApiServer) loaded) = Failed err) ∨
   (∃ built cause,
      ServerVersion built = Some cause ∧
      err = "ERROR communicating with apiserver: " +:+ cause)).
Proof.
  intros Hrun. pose proof (CreateKubeClient_steps fl strApiServer) as Hsteps.
  cbn zeta in Hsteps. rewrite Hrun in Hsteps.
  destruct (if inCluster fl then _ else _) as [loaded|e].
  - destruct (NewForConfig _) as [c'|e] eqn:Hnew.
    + destruct (ServerVersion c') as [cause|] eqn:Hver; [|done].
      injection Hsteps as -> ->. split; [done|]. right. right. eauto.
    + injection Hsteps as -> ->. split; [done|]. right. left. eauto.
  - injection Hsteps as -> ->. split; [done|]. by left.
Qed.

(** In the cluster the argument is not looked at: the host comes from the
    apiserver flag.  Outside the cluster the flag is not looked at: the
    host comes from the argument. *)
Theorem CreateKubeClient_host_source fl s1 s2 flag :
  if inCluster fl
  then CreateKubeClient fl s1 = CreateKubeClient fl s2
  else CreateKubeClient (SetApiServer flag fl) s1 = CreateKubeClient fl s1.
Proof.
  destruct (inCluster fl) eqn:Hin; unfold CreateKubeClient; cbn; by rewrite Hin.
Qed.

Lemma CreateKubeClient_logs_first fl strApiServer :
  ∃ rest, (CreateKubeClient fl strApiServer).2 = "Creating client" :: rest.
Proof.
  unfold CreateKubeClient. destruct (inCluster fl).
  - destruct InClusterConfig as [loaded|e]; [|by eexists].
    destruct (NewForConfig _) as [c|e]; [|by eexists].
    destruct (ServerVersion c); by eexists.
  - destruct DefaultClientConfig as [loaded|e]; [|by eexists].
    destruct (NewForConfig _) as [c|e]; [|by eexists].
    destruct (ServerVersion c); by eexists.
Qed.

(** [main] gets to serve only past every check: the flags parsed, help was
    not asked for, the apiserver was named or the process is in the
    cluster, and the client it serves with was built for the chosen host
    and was answered by the server.  It listens on the port flag. *)
Theorem main_serves_only_when_checked (args : list string) addr c log :
  main args = (Serving addr c, log) →
  (Parse args).2 = nil ∧
  help (Parse args).1 = false ∧
  (apiserver (Parse args).1 ≠ "" ∨ inCluster (Parse args).1 = true) ∧
  addr = listenAddress (Parse args).1 ∧
  (∃ loaded,
     (if inCluster (Parse args).1 then InClusterConfig
      else DefaultClientConfig) = Ok loaded ∧
     NewForConfig
       (setHost (if decide (apiserver (Parse args).1 ≠ "")
                 then apiserver (Parse args).1 else Host loaded) loaded) =
       Ok c) ∧
  ServerVersion c = nil.
Proof.
  unfold main. destruct (Parse args) as [fl [e|]]; [done|]. cbn [fst snd].
  destruct (help fl); [by destruct args|].
  case_decide as Hgate; [done|].
  destruct (CreateKubeClient fl (apiserver fl)) as [[kubeClient err] created]
    eqn:Hcreate.
  destruct err as [e|]; [done|]. destruct kubeClient as [c'|]; [|done].
  intros [= <- <- <-].
  assert (∃ loaded,
            (if inCluster fl then InClusterConfig else DefaultClientConfig) =
              Ok loaded ∧
            NewForConfig
              (setHost (if inCluster fl
                        then (if decide (apiserver fl ≠ "") then apiserver fl
                              else Host loaded)
                        else apiserver fl) loaded) = Ok c' ∧
            ServerVersion c' = nil) as (loaded & Hload & Hnew & Hver).
  { pose proof (CreateKubeClient_steps fl (apiserver fl)) as Hsteps.
    cbn zeta in Hsteps. rewrite Hcreate in Hsteps. cbn [fst] in Hsteps.
    destruct (if inCluster fl then _ else _) as [loaded|e]; [|done].
    destruct (NewForConfig _) as [built|e] eqn:Hnew; [|done].
    destruct (ServerVersion built) eqn:Hver; [done|].
    injection Hsteps as ->. exists loaded. by rewrite Hnew. }
  do 2 (split; [done|]). split.
  { destruct (decide (apiserver fl = "")) as [Hblank|]; [|by left].
    right. destruct (inCluster fl); [done|]. by destruct Hgate. }
  split; [done|]. split; [|done].
  exists loaded. split; [done|].
  destruct (inCluster fl); [done|].
  rewrite decide_True; [done|]. intros Hblank. by destruct Hgate.
Qed.


(** [main] calls [CreateKubeClient] exactly when the flags parsed, help
    was not asked for, and the apiserver is named or the process is in
    the cluster: before that no library that reaches the cluster is
    touched. *)
Theorem main_creates_client_iff (args : list string) :
  "Creating client" ∈ (main args).2 ↔
  (Parse args).2 = nil ∧ help (Parse args).1 = false ∧
  ¬ (apiserver (Parse args).1 = "" ∧ inCluster (Parse args).1 = false).
Proof.
  unfold main. destruct (Parse args) as [fl [e|]]; cbn [fst snd].
  { split; [by intros ?%elem_of_nil|by intros [? _]]. }
  destruct (help fl).
  { split; [|by intros (_ & ? & _)]. by destruct args; intros ?%elem_of_nil. }
  case_decide as Hgate.
  { split; [by intros ?%elem_of_nil|by intros (_ & _ & ?)]. }
  split; [done|]. intros _.
  destruct (CreateKubeClient_logs_first fl (apiserver fl)) as [rest Hlog].
  destruct (CreateKubeClient fl (apiserver fl)) as [[kubeClient err] created].
  cbn in Hlog. subst created.
  assert (Hin : "Creating client" ∈
                (["apiServer set to: " +:+ apiserver fl] ++
                 "Creating client" :: rest)%list)
    by (apply elem_of_app; right; by left).
  destruct err as [e|]; [done|]. destruct kubeClient as [c|]; [|done].
  cbn [snd]. apply elem_of_app. by left.
Qed.

End Process.

#[local] Existing Instance sampleLibrary.

Lemma CreateKubeClient_client_is_checked_witness :
  let fl := SetApiServer "http://master:8080" defaultFlags in
  (CreateKubeClient fl "http://master:8080").1 =
    (Some "http://master:8080", nil) ∧
  nil = nil ∧
  ∃ loaded,
    (if inCluster fl then InClusterConfig else DefaultClientConfig) =
      Ok loaded ∧
    NewForConfig
      (setHost (if inCluster fl
                then (if decide (apiserver fl ≠ "") then apiserver fl
                      else Host loaded)
                else "http://master:8080") loaded) =
      Ok "http://master:8080" ∧
    ServerVersion "http://master:8080" = nil.
Proof.
  intros fl.
  assert (Hrun : (CreateKubeClient fl "http://master:8080").1 =
                 (Some "http://master:8080", nil)) by reflexivity.
  split; [exact Hrun|].
  exact (CreateKubeClient_client_is_checked fl "http://master:8080"
           "http://master:8080" nil Hrun).
Defined.

Lemma CreateKubeClient_error_source_witness :
  let fl := defaultFlags in
  let err := "ERROR communicating with apiserver: connection refused" in
  (CreateKubeClient fl "http://down:1").1 = (None, Some err) ∧
  (None : option (@Clientset sampleLibrary)) = None ∧
  ((if inCluster fl then InClusterConfig else DefaultClientConfig) =
     Failed err ∨
   (∃ loaded,
      (if inCluster fl then InClusterConfig else DefaultClientConfig) =
        Ok loaded ∧
      NewForConfig
        (setHost (if inCluster fl
                  then (if decide (apiserver fl ≠ "") then apiserver fl
                        else Host loaded)
                  else "http://down:1") loaded) = Failed err) ∨
   (∃ built cause,
      ServerVersion built = Some cause ∧
      err = "ERROR communicating with apiserver: " +:+ cause)).
Proof.
  intros fl err.
  assert (Hrun : (CreateKubeClient fl "http://down:1").1 = (None, Some err))
    by reflexivity.
  split; [exact Hrun|].
  exact (CreateKubeClient_error_source fl "http://down:1" None err Hrun).
Defined.

Lemma main_serves_only_when_checked_witness :
  let args := ["kube-metrics"; "--apiserver"; "http://master:8080"] in
  main args =
    (Serving ":80" "http://master:8080",
     ["apiServer set to: http://master:8080"; "Creating client";
      "testing communication with server"; "Starting metrics server: :80"]) ∧
  (Parse args).2 = nil ∧
  help (Parse args).1 = false ∧
  (apiserver (Parse args).1 ≠ "" ∨ inCluster (Parse args).1 = true) ∧
  ":80" = listenAddress (Parse args).1 ∧
  (∃ loaded,
     (if inCluster (Parse args).1 then InClusterConfig
      else DefaultClientConfig) = Ok loaded ∧
     NewForConfig
       (setHost (if decide (apiserver (Parse args).1 ≠ "")
                 then apiserver (Parse args).1 else Host loaded) loaded) =
       Ok "http://master:8080") ∧
  ServerVersion "http://master:8080" = nil.
Proof.
  intros args.
  assert (Hrun : main args =
    (Serving ":80" "http://master:8080",
     ["apiServer set to: http://master:8080"; "Creating client";
      "testing communication with server"; "Starting metrics server: :80"]))
    by (vm_compute; reflexivity).
  split; [exact Hrun|].
  exact (main_serves_only_when_checked args _ _ _ Hrun).
Defined.


End BootstrapFacts.
